(** * The lesson quiz of the LessonScreen component

    A shallow embedding of the quiz logic of [LessonScreen]: question
    generation ([startQuiz]), the three event handlers
    ([handleAnswerSelect], [handleSubmitAnswer], [handleNextQuestion]),
    the completion request ([completeLesson]) and the part of the render
    function that decides which handlers the learner can reach.

    React state is modelled by a record.  A handler reads the state of the
    render it was created in and yields the state of the next render
    together with the effects it fired (alerts, the HTTP request); one
    handler runs per render.  The host's [Math.random] and
    [Array.prototype.sort] are an interface ([JsEngine]); [Date.now()] is
    an input of each event. *)

From Stdlib Require Import List String Ascii ZArith QArith Bool Arith Lia.
From Stdlib Require Import Permutation DecimalString.
Import ListNotations.
Open Scope string_scope.
Open Scope nat_scope.
Open Scope list_scope.

Set Implicit Arguments.

(** ** Data model *)

(** [interface Word] *)
Record Word := mkWord {
  id : string;
  arabic : string;
  transliteration : string;
  meaning : string
}.

(** [interface QuizQuestion] *)
Record QuizQuestion := mkQuestion {
  word : Word;
  options : list string;
  correctAnswer : string
}.

(** An element of the [answers] state array. *)
Record Answer := mkAnswer {
  word_id : string;
  is_correct : bool;
  time_spent : Z
}.

(** ** The host: [Math.random] and [Array.prototype.sort]

    [startQuiz] shuffles with [.sort(() => Math.random() - 0.5)].  The
    comparator ignores its arguments and answers with a fresh draw, so it
    is not a consistent comparator; the language then leaves the resulting
    order to the engine and only promises that the array is rearranged,
    never changed in content.  [Rand] is the hidden state of the
    generator behind [Math.random]; the program has no way to set it. *)

Class JsEngine := {
  Rand : Type;
  Math_random : Rand -> Q * Rand;
  Array_sort :
    (string -> string -> Rand -> Q * Rand) -> list string -> Rand -> list string * Rand;
  Array_sort_permutes :
    forall cmp l g, Permutation l (fst (Array_sort cmp l g))
}.

(** Computations that draw from the generator. *)
Definition M {E : JsEngine} (A : Type) : Type := Rand -> A * Rand.

Definition ret {E : JsEngine} {A} (a : A) : M A := fun g => (a, g).

Definition bind {E : JsEngine} {A B} (m : M A) (k : A -> M B) : M B :=
  fun g => let (a, g') := m g in k a g'.

Notation "x <- m ;; k" := (bind m (fun x => k))
  (at level 61, m at next level, right associativity).

(** [Array.prototype.map] with a callback that draws: the callback runs
    on the elements from left to right. *)
Fixpoint mapM {E : JsEngine} {A B} (f : A -> M B) (l : list A) : M (list B) :=
  match l with
  | [] => ret []
  | a :: l' => b <- f a ;; bs <- mapM f l' ;; ret (b :: bs)
  end.

(** [Array.prototype.slice(0, n)] *)
Definition slice0 {A} (n : nat) (l : list A) : list A := firstn n l.

Section Generation.
Context {E : JsEngine}.

(** [() => Math.random() - 0.5] *)
Definition randomComparator (_ _ : string) : M Q :=
  r <- Math_random ;; ret (r - (1 # 2))%Q.

(** [.sort(() => Math.random() - 0.5)] *)
Definition shuffle (l : list string) : M (list string) :=
  Array_sort randomComparator l.

(** The callback of [words.map] in [startQuiz]. *)
Definition makeQuestion (words : list Word) (w : Word) : M QuizQuestion :=
  sorted <- shuffle
              (map meaning
                 (filter (fun w' => negb (String.eqb (id w') (id w))) words)) ;;
  let wrongOptions := slice0 3 sorted in
  opts <- shuffle (wrongOptions ++ [meaning w]) ;;
  ret {| word := w; options := opts; correctAnswer := meaning w |}.

(** [const quizQuestions = words.map(word => ...)] *)
Definition generateQuestions (words : list Word) : M (list QuizQuestion) :=
  mapM (makeQuestion words) words.

End Generation.

(** ** Component state *)

(** The [useState] cells of [LessonScreen]. *)
Record State := mkState {
  loading : bool;
  words : list Word;
  quizMode : bool;
  currentQuestion : nat;
  questions : list QuizQuestion;
  selectedAnswer : option string;
  showResult : bool;
  score : nat;
  answers : list Answer;
  questionStartTime : Z
}.

(** The state at mount, [Date.now()] being [t]. *)
Definition mounted (t : Z) : State :=
  {| loading := true; words := []; quizMode := false; currentQuestion := 0;
     questions := []; selectedAnswer := None; showResult := false;
     score := 0; answers := []; questionStartTime := t |}.

(** [loadLesson] after a successful response: [setWords(response.data)]
    and, in [finally], [setLoading(false)]. *)
Definition loadLesson_ok (ws : list Word) (st : State) : State :=
  {| loading := false; words := ws; quizMode := quizMode st;
     currentQuestion := currentQuestion st; questions := questions st;
     selectedAnswer := selectedAnswer st; showResult := showResult st;
     score := score st; answers := answers st;
     questionStartTime := questionStartTime st |}.

(** What a handler receives from outside the component. *)
Record Env := mkEnv {
  routeId : string;      (* [const { id } = useLocalSearchParams()] *)
  now : Z;               (* [Date.now()], milliseconds *)
  postSucceeds : bool    (* whether [axios.post] resolves *)
}.

(** Body of the request to [/api/lessons/complete]. *)
Record Payload := mkPayload {
  lesson_id : string;
  payload_answers : list Answer;
  total_time : Z
}.

Inductive Effect :=
| Alert (title message : string)
| HttpPost (body : Payload).

(** JavaScript truthiness of a [string | null]: [null] and the empty
    string are falsy. *)
Definition truthy (s : option string) : bool :=
  match s with
  | Some (String _ _) => true
  | _ => false
  end.

(** [selectedAnswer === s] for [selectedAnswer : string | null]. *)
Definition strictEq (sel : option string) (s : string) : bool :=
  match sel with
  | Some a => String.eqb a s
  | None => false
  end.

(** [Math.floor((Date.now() - questionStartTime) / 1000)] *)
Definition elapsedSeconds (env : Env) (st : State) : Z :=
  ((now env - questionStartTime st) / 1000)%Z.

(** Decimal rendering of a number inside a template string. *)
Definition showNat (n : nat) : string := NilEmpty.string_of_uint (Nat.to_uint n).

(** ** Handlers *)

Section StartQuiz.
Context {E : JsEngine}.

(** [startQuiz]: [setQuestions(quizQuestions); setQuizMode(true);
    setQuestionStartTime(Date.now())]. *)
Definition startQuiz (t : Z) (st : State) : M State :=
  quizQuestions <- generateQuestions (words st) ;;
  ret {| loading := loading st; words := words st; quizMode := true;
         currentQuestion := currentQuestion st; questions := quizQuestions;
         selectedAnswer := selectedAnswer st; showResult := showResult st;
         score := score st; answers := answers st;
         questionStartTime := t |}.

End StartQuiz.

(** [handleAnswerSelect] *)
Definition handleAnswerSelect (answer : string) (st : State) : State :=
  if showResult st then st
  else {| loading := loading st; words := words st; quizMode := quizMode st;
          currentQuestion := currentQuestion st; questions := questions st;
          selectedAnswer := Some answer; showResult := showResult st;
          score := score st; answers := answers st;
          questionStartTime := questionStartTime st |}.

(** Outcome of a handler: the next state and the effects fired, or the
    [TypeError] of reading a property of [undefined]. *)
Inductive Outcome :=
| Done (st : State) (effects : list Effect)
| TypeError.

(** [completeLesson].  The request body is built inside [try]: when
    [questions[currentQuestion]] is undefined the [TypeError] is caught
    and only the failure alert is shown.  The handler sets no state. *)
Definition completeLesson (env : Env) (st : State) : list Effect :=
  match nth_error (questions st) (currentQuestion st) with
  | None => [Alert "Error" "Failed to save progress"]
  | Some q =>
      let body :=
        {| lesson_id := ("lesson_" ++ routeId env)%string;
           payload_answers :=
             answers st ++
             [{| word_id := id (word q);
                 is_correct := strictEq (selectedAnswer st) (correctAnswer q);
                 time_spent := elapsedSeconds env st |}];
           total_time := 900 |} in
      if postSucceeds env then
        [HttpPost body;
         Alert "Lesson Complete!"
           ("You scored "
            ++ showNat (score st
                        + (if strictEq (selectedAnswer st) (correctAnswer q)
                           then 1 else 0))
            ++ " out of " ++ showNat (List.length (questions st)))%string]
      else
        [HttpPost body; Alert "Error" "Failed to save progress"]
  end.

(** [handleSubmitAnswer] *)
Definition handleSubmitAnswer (env : Env) (st : State) : Outcome :=
  if negb (truthy (selectedAnswer st)) then
    Done st [Alert "Please select an answer" ""]
  else
    match nth_error (questions st) (currentQuestion st) with
    | None => TypeError
    | Some question =>
        let isCorrect := strictEq (selectedAnswer st) (correctAnswer question) in
        let timeSpent := elapsedSeconds env st in
        Done {| loading := loading st; words := words st; quizMode := quizMode st;
                currentQuestion := currentQuestion st; questions := questions st;
                selectedAnswer := selectedAnswer st;
                showResult := true;
                score := if isCorrect then score st + 1 else score st;
                answers := answers st ++
                           [{| word_id := id (word question);
                               is_correct := isCorrect;
                               time_spent := timeSpent |}];
                questionStartTime := questionStartTime st |}
             []
    end.

(** [handleNextQuestion] *)
Definition handleNextQuestion (env : Env) (st : State) : Outcome :=
  if (Z.of_nat (currentQuestion st) <? Z.of_nat (List.length (questions st)) - 1)%Z then
    Done {| loading := loading st; words := words st; quizMode := quizMode st;
            currentQuestion := currentQuestion st + 1; questions := questions st;
            selectedAnswer := None;
            showResult := false;
            score := score st; answers := answers st;
            questionStartTime := now env |}
         []
  else
    Done st (completeLesson env st).

(** ** What the screen offers

    The quiz branch of the render function.  It reads
    [questions[currentQuestion].correctAnswer] before anything else, and
    decides which handlers can be reached: option buttons carry
    [disabled={showResult}], and the footer holds either the submit button
    ([disabled={!selectedAnswer}]) or the next button, never both. *)

Inductive FooterButton :=
| SubmitAnswerButton (disabled : bool)
| NextButton (label : string).

Record QuizView := mkView {
  progressText : nat * nat;       (* [{currentQuestion + 1}/{questions.length}] *)
  optionButtons : list string;
  optionsDisabled : bool;
  footer : FooterButton
}.

Inductive Screen :=
| LoadingScreen
| QuizScreen (v : QuizView)
| LearningScreen (wordCount : nat)   (* word cards and the Start Quiz button *)
| RenderTypeError.

Definition render (st : State) : Screen :=
  if loading st then LoadingScreen
  else if quizMode st then
    match nth_error (questions st) (currentQuestion st) with
    | None => RenderTypeError
    | Some question =>
        QuizScreen
          {| progressText := (currentQuestion st + 1, List.length (questions st));
             optionButtons := options question;
             optionsDisabled := showResult st;
             footer :=
               if negb (showResult st) then
                 SubmitAnswerButton (negb (truthy (selectedAnswer st)))
               else
                 NextButton
                   (if (Z.of_nat (currentQuestion st)
                        <? Z.of_nat (List.length (questions st)) - 1)%Z
                    then "Next Question" else "Complete Lesson") |}
    end
  else LearningScreen (List.length (words st)).

(** The learner's gestures on the quiz screen. *)
Inductive Action :=
| PressOption (option : string)
| PressSubmit
| PressNext.

(** A press runs the handler of the button if the screen shows that
    button enabled; a press on anything else reaches no handler. *)
Definition press (env : Env) (st : State) (a : Action) : Outcome :=
  match render st with
  | QuizScreen v =>
      match a with
      | PressOption o =>
          if existsb (String.eqb o) (optionButtons v) && negb (optionsDisabled v)
          then Done (handleAnswerSelect o st) []
          else Done st []
      | PressSubmit =>
          match footer v with
          | SubmitAnswerButton false => handleSubmitAnswer env st
          | _ => Done st []
          end
      | PressNext =>
          match footer v with
          | NextButton _ => handleNextQuestion env st
          | _ => Done st []
          end
      end
  | RenderTypeError => TypeError
  | _ => Done st []
  end.

(** ** Relations used to state the facts *)

(** The meanings of the words with another id than [w], in lesson order:
    the array that the first shuffle receives. *)
Definition others (ws : list Word) (w : Word) : list string :=
  map meaning (filter (fun w' => negb (String.eqb (id w') (id w))) ws).

(** One question, spelled out: its options are a rearrangement of three
    (or fewer) of the shuffled meanings of the other words, followed by
    the word's own meaning. *)
Definition questionFor (ws : list Word) (w : Word) (q : QuizQuestion) : Prop :=
  word q = w /\ correctAnswer q = meaning w /\
  exists sorted,
    Permutation (others ws w) sorted /\
    Permutation (slice0 3 sorted ++ [meaning w]) (options q).

(** ** Sessions *)

(** States the component can be in once the quiz has been started: after
    [startQuiz] on a loaded lesson, and after any press on the screen
    whose handler ran to its end. *)
Inductive reachable {E : JsEngine} : State -> Prop :=
| reach_start t0 ws t g :
    reachable (fst (startQuiz t (loadLesson_ok ws (mounted t0)) g))
| reach_press env st a st' effs :
    reachable st -> press env st a = Done st' effs -> reachable st'.

(** One stored answer per question left behind, plus one for the current
    question once its result is shown; that last one is the answer to the
    current question as the learner selected it. *)
Definition session_inv (st : State) : Prop :=
  loading st = false /\ quizMode st = true /\
  List.length (answers st)
    = currentQuestion st + (if showResult st then 1 else 0) /\
  currentQuestion st <= List.length (questions st) - 1 /\
  (showResult st = true ->
   exists q init a,
     nth_error (questions st) (currentQuestion st) = Some q /\
     answers st = init ++ [a] /\
     word_id a = id (word q) /\
     is_correct a = strictEq (selectedAnswer st) (correctAnswer q)).

(** The screen shows question [i] and waits for the learner's answer. *)
Definition AwaitingAnswer (i : nat) (st : State) : Prop :=
  loading st = false /\ quizMode st = true /\
  currentQuestion st = i /\ i < List.length (questions st) /\
  showResult st = false.

(** The answer to question [i] has been submitted and its result is
    shown. *)
Definition AnswerSubmitted (i : nat) (st : State) : Prop :=
  loading st = false /\ quizMode st = true /\
  currentQuestion st = i /\ i < List.length (questions st) /\
  showResult st = true.

(** The state after a sequence of presses (a press that ends in a
    [TypeError] ends the sequence). *)
Fixpoint after (st : State) (trace : list (Env * Action)) : State :=
  match trace with
  | [] => st
  | (env, a) :: trace' =>
      match press env st a with
      | Done st' _ => after st' trace'
      | TypeError => st
      end
  end.

(** [sumTimeSpent]: the sum of the [time_spent] fields. *)
Definition sumTimeSpent (l : list Answer) : Z :=
  fold_right Z.add 0%Z (map time_spent l).

(** The number of stored answers marked correct. *)
Definition countCorrect (l : list Answer) : nat :=
  List.length (filter is_correct l).

(** ** A scripted engine

    One engine that meets [JsEngine]: [Math.random] reads its values off
    a script (and returns 0 once the script is used up), and [sort] is an
    insertion sort, calling the comparator on the element to place and on
    each element it passes. *)

Module Scripted.

Definition random (g : list Q) : Q * list Q :=
  match g with
  | [] => (0%Q, [])
  | r :: g' => (r, g')
  end.

Fixpoint insertBy (cmp : string -> string -> list Q -> Q * list Q)
    (x : string) (sorted : list string) (g : list Q) : list string * list Q :=
  match sorted with
  | [] => ([x], g)
  | y :: ys =>
      let (c, g') := cmp x y g in
      if Qle_bool 0 c then
        let (r, g'') := insertBy cmp x ys g' in (y :: r, g'')
      else (x :: y :: ys, g')
  end.

Fixpoint sort (cmp : string -> string -> list Q -> Q * list Q)
    (l : list string) (g : list Q) : list string * list Q :=
  match l with
  | [] => ([], g)
  | x :: xs => let (s, g') := sort cmp xs g in insertBy cmp x s g'
  end.

#[export] Instance engine : JsEngine.
Proof.
  refine {| Rand := list Q; Math_random := random; Array_sort := sort |}.
  assert (insertBy_permutes :
            forall cmp x s g, Permutation (x :: s) (fst (insertBy cmp x s g))).
  { intros cmp x s. induction s as [|y ys IH]; intros g; simpl.
    - apply Permutation_refl.
    - destruct (cmp x y g) as [c g'].
      destruct (Qle_bool 0 c).
      + specialize (IH g'). destruct (insertBy cmp x ys g') as [r g'']; simpl in *.
        apply (perm_trans (perm_swap y x ys)). now apply perm_skip.
      + apply Permutation_refl. }
  intros cmp l. induction l as [|x xs IH]; intros g; simpl.
  - apply perm_nil.
  - specialize (IH g). destruct (sort cmp xs g) as [s g']; simpl in *.
    apply (perm_trans (perm_skip x IH)). apply insertBy_permutes.
Defined.

End Scripted.

(** ** Sample lessons *)

Definition wGod := mkWord "w1" "ALLAH" "Allah" "God".
Definition wLord := mkWord "w2" "RABB" "Rabb" "Lord".
Definition wMerciful := mkWord "w3" "AL-RAHMAN" "Ar-Rahman" "Merciful".
Definition wCompassionate := mkWord "w4" "AL-RAHIM" "Ar-Raheem" "Compassionate".

(** A second word whose gloss is also "God". *)
Definition wDeity := mkWord "w5" "ILAH" "Ilah" "God".

Definition lesson4 : list Word := [wGod; wLord; wMerciful; wCompassionate].

(** The lesson screen once [loadLesson] has delivered [ws]. *)
Definition loaded (ws : list Word) : State := loadLesson_ok ws (mounted 0).

(** Lesson 1, [Date.now()] being [t], the request succeeding. *)
Definition atTime (t : Z) : Env :=
  {| routeId := "1"; now := t; postSucceeds := true |}.

(** A one-word lesson, quiz just started. *)
Definition oneWordStarted : State :=
  fst (startQuiz (E := Scripted.engine) 1000 (loaded [wGod]) []).

(** The same, "God" selected. *)
Definition oneWordSelected : State :=
  after oneWordStarted [(atTime 4000, PressOption "God")].

(** The same, answer submitted five seconds after the start. *)
Definition oneWordSubmitted : State :=
  after oneWordStarted
    [(atTime 4000, PressOption "God"); (atTime 6000, PressSubmit)].

(** A two-word lesson, quiz just started. *)
Definition twoWordsStarted : State :=
  fst (startQuiz (E := Scripted.engine) 1000 (loaded [wGod; wLord]) []).

(** The same, "God" selected and submitted for the first question. *)
Definition twoWordsSubmitted : State :=
  after twoWordsStarted
    [(atTime 4000, PressOption "God"); (atTime 6000, PressSubmit)].

Ltac by_evaluation := vm_compute; repeat split; solve [reflexivity | lia].

(** ** Question generation: what holds of every engine *)

Section GenerationFacts.
Context {E : JsEngine}.

Lemma mapM_Forall2 {A B} (f : A -> M B) (P : A -> B -> Prop) :
  (forall a g, P a (fst (f a g))) ->
  forall l g, Forall2 P l (fst (mapM f l g)).
Proof.
  intros HP; induction l as [|a l IH]; intros g; simpl.
  - constructor.
  - unfold bind, ret. specialize (HP a g).
    destruct (f a g) as [b g1]. specialize (IH g1).
    destruct (mapM f l g1) as [bs g2]. simpl in *. now constructor.
Qed.

Lemma makeQuestion_spec ws w g : questionFor ws w (fst (makeQuestion ws w g)).
Proof.
  unfold questionFor, makeQuestion, bind, ret, shuffle. fold (others ws w).
  pose proof (Array_sort_permutes randomComparator (others ws w) g) as H1.
  destruct (Array_sort randomComparator (others ws w) g) as [sorted g1].
  pose proof (Array_sort_permutes randomComparator
                (slice0 3 sorted ++ [meaning w]) g1) as H2.
  destruct (Array_sort randomComparator _ g1) as [opts g2].
  simpl in *. repeat split; trivial. now exists sorted.
Qed.

Lemma generateQuestions_spec ws g :
  Forall2 (questionFor ws) ws (fst (generateQuestions ws g)).
Proof. apply mapM_Forall2, makeQuestion_spec. Qed.

Lemma makeQuestion_word ws w g :
  word (fst (makeQuestion ws w g)) = w /\
  correctAnswer (fst (makeQuestion ws w g)) = meaning w.
Proof.
  unfold makeQuestion, bind, ret, shuffle.
  destruct (Array_sort _ _ g) as [sorted g1].
  destruct (Array_sort _ _ g1) as [opts g2]. now simpl.
Qed.

Lemma makeQuestion_length ws w g :
  List.length (options (fst (makeQuestion ws w g)))
  = Nat.min 3 (List.length (others ws w)) + 1.
Proof.
  destruct (makeQuestion_spec ws w g) as (_ & _ & sorted & H1 & H2).
  rewrite <- (Permutation_length H2), length_app, (Permutation_length H1).
  unfold slice0. now rewrite length_firstn.
Qed.

Lemma makeQuestion_In ws w g :
  In (meaning w) (options (fst (makeQuestion ws w g))).
Proof.
  destruct (makeQuestion_spec ws w g) as (_ & _ & sorted & _ & H2).
  apply (Permutation_in _ H2), in_or_app. right. now left.
Qed.

(** Words with another id than [i]. *)
Lemma filter_other_ids_all (i : string) (l : list Word) :
  ~ In i (map id l) ->
  filter (fun w' => negb (String.eqb (id w') i)) l = l.
Proof.
  induction l as [|a l IH]; simpl; intros Hn; trivial.
  destruct (String.eqb_spec (id a) i) as [e|ne]; simpl.
  - exfalso. apply Hn. now left.
  - f_equal. apply IH. intros Hin. apply Hn. now right.
Qed.

Lemma filter_other_ids_length (i : string) (l : list Word) :
  NoDup (map id l) -> In i (map id l) ->
  S (List.length (filter (fun w' => negb (String.eqb (id w') i)) l))
  = List.length l.
Proof.
  induction l as [|a l IH]; simpl; intros Hnd Hin.
  - contradiction.
  - inversion Hnd as [|x xs Hnotin Hnd']; subst.
    destruct (String.eqb_spec (id a) i) as [e|ne]; simpl.
    + subst i. now rewrite filter_other_ids_all.
    + f_equal. apply IH; trivial. destruct Hin as [e|Hin]; [contradiction|trivial].
Qed.

Lemma others_length ws w :
  NoDup (map id ws) -> In w ws ->
  S (List.length (others ws w)) = List.length ws.
Proof.
  intros Hnd Hin. unfold others. rewrite length_map.
  apply filter_other_ids_length; trivial. now apply in_map.
Qed.

Lemma Forall2_In_l {A B} (P : A -> B -> Prop) (Q : A -> B -> Prop) l l' :
  (forall a b, In a l -> P a b -> Q a b) -> Forall2 P l l' -> Forall2 Q l l'.
Proof.
  intros H F; induction F as [|a b l l' Hab F IH]; constructor.
  - apply H; trivial. now left.
  - apply IH. intros a' b' Hin. apply H. now right.
Qed.

Lemma Forall2_same_left {A B} (P : A -> B -> Prop) l l1 l2 :
  Forall2 P l l1 -> Forall2 P l l2 ->
  Forall2 (fun b1 b2 => exists a, P a b1 /\ P a b2) l1 l2.
Proof.
  intros F1; revert l2; induction F1 as [|a b l l1 Hab F1 IH]; intros l2 F2;
    inversion F2; subst; constructor; eauto.
Qed.

End GenerationFacts.

(** ** The session invariant *)

Lemma startQuiz_fields {E : JsEngine} t st g :
  let st' := fst (startQuiz t st g) in
  loading st' = loading st /\ words st' = words st /\ quizMode st' = true /\
  currentQuestion st' = currentQuestion st /\
  questions st' = fst (generateQuestions (words st) g) /\
  selectedAnswer st' = selectedAnswer st /\ showResult st' = showResult st /\
  score st' = score st /\ answers st' = answers st /\
  questionStartTime st' = t.
Proof.
  unfold startQuiz, bind, ret.
  destruct (generateQuestions (words st) g) as [qs g']. simpl. tauto.
Qed.

Lemma press_inv env st a st' effs :
  session_inv st -> press env st a = Done st' effs -> session_inv st'.
Proof.
  intros Hinv. pose proof Hinv as (Hl & Hq & Hlen & Hcur & Hlast).
  unfold press, render. rewrite Hl, Hq.
  destruct (nth_error (questions st) (currentQuestion st)) as [q|] eqn:Hnth;
    [|discriminate].
  assert (Hlt : currentQuestion st < List.length (questions st))
    by (apply nth_error_Some; congruence).
  cbn [footer optionButtons optionsDisabled].
  destruct a.
  - (* an option button *)
    destruct (existsb _ _ && negb (showResult st)) eqn:Hen; intros [= <- <-];
      trivial.
    apply andb_prop in Hen as [_ Hsr]. apply negb_true_iff in Hsr.
    unfold handleAnswerSelect. rewrite Hsr. unfold session_inv; cbn.
    rewrite Hsr in *. repeat split; trivial. discriminate.
  - (* the submit button *)
    destruct (showResult st) eqn:Hsr; cbn [negb].
    1: now intros [= <- <-].
    destruct (truthy (selectedAnswer st)) eqn:Htr; cbn [negb].
    2: now intros [= <- <-].
    unfold handleSubmitAnswer. rewrite Htr, Hnth. cbn [negb].
    intros [= <- <-]. unfold session_inv; cbn.
    repeat split; trivial.
    + rewrite length_app. cbn. lia.
    + intros _. exists q, (answers st). eexists. rewrite Hnth.
      repeat split; reflexivity.
  - (* the next button *)
    destruct (showResult st) eqn:Hsr; cbn [negb].
    2: now intros [= <- <-].
    unfold handleNextQuestion.
    destruct (Z.of_nat (currentQuestion st) <? _)%Z eqn:Hcmp; intros [= <- <-];
      trivial.
    apply Z.ltb_lt in Hcmp. unfold session_inv; cbn.
    repeat split; trivial; try lia; discriminate.
Qed.

Lemma reachable_inv {E : JsEngine} st : reachable st -> session_inv st.
Proof.
  induction 1 as [t0 ws t g | env st a st' effs _ IH Hp].
  - destruct (startQuiz_fields t (loadLesson_ok ws (mounted t0)) g)
      as (H1 & _ & H3 & H4 & _ & _ & H7 & _ & H9 & _).
    unfold session_inv. rewrite H1, H3, H4, H7, H9. cbn.
    repeat split; try lia; discriminate.
  - eapply press_inv; eassumption.
Qed.

(** ** Claims on question generation *)

Section GenerationClaims.
Context {E : JsEngine}.

Lemma startQuiz_questions t st g :
  questions (fst (startQuiz t st g)) = fst (generateQuestions (words st) g).
Proof. apply startQuiz_fields. Qed.

(** C10.  [startQuiz] keeps the lesson order: position by position, the
    question's word is the input word and its [correctAnswer] is that
    word's meaning, whatever the engine draws. *)
Theorem startQuiz_preserves_order t st g :
  Forall2 (fun w q => word q = w /\ correctAnswer q = meaning w)
    (words st) (questions (fst (startQuiz t st g))).
Proof.
  rewrite startQuiz_questions. unfold generateQuestions.
  apply mapM_Forall2. intros w g'. apply makeQuestion_word.
Qed.

(** C8.  On a lesson of at least four words (with the unique ids of the
    data model) [startQuiz] makes one question per word, and each has
    exactly four options, one of them the meaning of its word, which is
    its [correctAnswer]. *)
Theorem startQuiz_four_options t st g :
  4 <= List.length (words st) ->
  NoDup (map id (words st)) ->
  List.length (questions (fst (startQuiz t st g))) = List.length (words st) /\
  Forall2 (fun w q =>
             List.length (options q) = 4 /\
             In (meaning w) (options q) /\
             correctAnswer q = meaning w)
    (words st) (questions (fst (startQuiz t st g))).
Proof.
  intros Hlen Hnd. rewrite startQuiz_questions. unfold generateQuestions.
  assert (F : Forall2 (fun w q =>
                         List.length (options q)
                         = Nat.min 3 (List.length (others (words st) w)) + 1 /\
                         In (meaning w) (options q) /\
                         correctAnswer q = meaning w)
                (words st) (fst (mapM (makeQuestion (words st)) (words st) g))).
  { apply mapM_Forall2. intros w g'. repeat split.
    - apply makeQuestion_length.
    - apply makeQuestion_In.
    - apply makeQuestion_word. }
  split.
  - symmetry. exact (Forall2_length F).
  - revert F. apply Forall2_In_l. intros w q Hin (Hl & Hi & Hc).
    repeat split; trivial.
    assert (S (List.length (others (words st) w)) = List.length (words st))
      by (apply others_length; trivial).
    lia.
Qed.

(** C9, as the code has it.  [startQuiz] takes no random source and no
    seed; it draws from [Math.random].  Two runs on the same lesson agree
    on the number of questions and, position by position, on the word,
    the [correctAnswer] and the number of options. *)
Theorem startQuiz_runs_agree_up_to_options t1 t2 st g1 g2 :
  Forall2 (fun q1 q2 =>
             word q1 = word q2 /\
             correctAnswer q1 = correctAnswer q2 /\
             List.length (options q1) = List.length (options q2))
    (questions (fst (startQuiz t1 st g1)))
    (questions (fst (startQuiz t2 st g2))).
Proof.
  rewrite !startQuiz_questions. unfold generateQuestions.
  set (P := fun w q =>
              word q = w /\ correctAnswer q = meaning w /\
              List.length (options q)
              = Nat.min 3 (List.length (others (words st) w)) + 1).
  assert (F : forall g, Forall2 P (words st)
                          (fst (mapM (makeQuestion (words st)) (words st) g))).
  { intros g. apply mapM_Forall2. intros w g'. unfold P.
    destruct (makeQuestion_word (words st) w g') as [Hw Hc].
    repeat split; trivial. apply makeQuestion_length. }
  pose proof (Forall2_same_left (F g1) (F g2)) as F12.
  eapply Forall2_impl; [|exact F12].
  intros q1 q2 (w & (Hw1 & Hc1 & Hl1) & (Hw2 & Hc2 & Hl2)).
  repeat split; congruence.
Qed.

(** C6.  [startQuiz] on a lesson without words raises nothing: it stores
    the empty question list and switches to quiz mode; the next render
    then reads a property of [questions[0]], which is undefined. *)
Theorem startQuiz_empty_lesson_starts_quiz t g :
  let st := fst (startQuiz t (loaded []) g) in
  quizMode st = true /\ questions st = [] /\
  render st = RenderTypeError /\
  forall env a, press env st a = TypeError.
Proof.
  cbv zeta. unfold press. cbn. repeat split.
Qed.

End GenerationClaims.

Section OptionValidity.
Context {E : JsEngine}.

Lemma NoDup_map_injective {A B} (f : A -> B) (l : list A) x y :
  NoDup (map f l) -> In x l -> In y l -> f x = f y -> x = y.
Proof.
  induction l as [|a l IH]; simpl; intros Hnd Hx Hy Hf; [contradiction|].
  inversion Hnd as [|? ? Hnotin Hnd']; subst.
  destruct Hx as [<-|Hx], Hy as [<-|Hy]; trivial.
  - exfalso. apply Hnotin. rewrite Hf. now apply in_map.
  - exfalso. apply Hnotin. rewrite <- Hf. now apply in_map.
  - now apply IH.
Qed.

(** Distinct meanings in the lesson stay distinct among the other
    words. *)
Lemma others_NoDup ws w : NoDup (map meaning ws) -> NoDup (others ws w).
Proof.
  unfold others. induction ws as [|w' ws IH]; simpl; intros Hnd; trivial.
  inversion Hnd as [|? ? Hnotin Hnd']; subst.
  destruct (negb (String.eqb (id w') (id w))); simpl; auto.
  constructor; auto. intros Hin. apply Hnotin.
  apply in_map_iff in Hin as (b & Hb & Hin). apply filter_In in Hin as [Hin _].
  rewrite <- Hb. now apply in_map.
Qed.

Lemma In_slice0 {A} n (l : list A) x : In x (slice0 n l) -> In x l.
Proof.
  unfold slice0. intros H. rewrite <- (firstn_skipn n l).
  apply in_or_app. now left.
Qed.

Lemma NoDup_slice0 {A} n (l : list A) : NoDup l -> NoDup (slice0 n l).
Proof.
  unfold slice0. intros H. rewrite <- (firstn_skipn n l) in H.
  now apply NoDup_app_remove_r in H.
Qed.

Lemma Forall2_Forall_r {A B} (P : A -> B -> Prop) (Q : B -> Prop) l l' :
  (forall a b, In a l -> P a b -> Q b) -> Forall2 P l l' -> Forall Q l'.
Proof.
  intros H F; induction F as [|a b l l' Hab F IH]; constructor.
  - apply (H a); trivial. now left.
  - apply IH. intros a' b' Hin. apply H. now right.
Qed.

(** Where P1 does hold: when no two words of the lesson share a meaning,
    every question lists its [correctAnswer] exactly once and repeats no
    option. *)
Lemma startQuiz_options_valid_if_meanings_distinct t st g :
  NoDup (map meaning (words st)) ->
  Forall (fun q =>
            count_occ string_dec (options q) (correctAnswer q) = 1 /\
            NoDup (options q))
    (questions (fst (startQuiz t st g))).
Proof.
  intros Hnd. rewrite startQuiz_questions.
  eapply Forall2_Forall_r; [|apply generateQuestions_spec].
  intros w q Hin (Hw & Hc & sorted & H1 & H2). cbv beta in *.
  assert (Hnot : ~ In (meaning w) (others (words st) w)).
  { unfold others. intros Hm.
    apply in_map_iff in Hm as (w' & Hm & Hf).
    apply filter_In in Hf as [Hin' Hid].
    assert (w' = w) by (eapply NoDup_map_injective; eassumption).
    subst w'. now rewrite String.eqb_refl in Hid. }
  assert (Hopts : NoDup (options q)).
  { apply (Permutation_NoDup H2). apply NoDup_app. repeat split.
    - apply NoDup_slice0, (Permutation_NoDup H1). now apply others_NoDup.
    - repeat constructor. intros [].
    - intros x Hx [<-|[]]. apply Hnot.
      apply (Permutation_in _ (Permutation_sym H1)). eapply In_slice0, Hx. }
  split; trivial.
  apply NoDup_count_occ'; trivial. rewrite Hc.
  apply (Permutation_in _ H2), in_or_app. right. now left.
Qed.

(** C1.  Where it fails: two words with different ids and the same
    meaning.  Whatever the engine draws, the first question offers
    "God" twice, so its [correctAnswer] occurs twice among its options. *)
Theorem startQuiz_shared_meaning_repeats_correctAnswer t g :
  let st := fst (startQuiz t (loaded [wGod; wDeity]) g) in
  exists q1 q2,
    questions st = [q1; q2] /\
    correctAnswer q1 = "God" /\
    options q1 = ["God"; "God"] /\
    count_occ string_dec (options q1) (correctAnswer q1) = 2 /\
    ~ NoDup (options q1).
Proof.
  cbv zeta. rewrite startQuiz_questions.
  cbn [loaded loadLesson_ok words].
  pose proof (generateQuestions_spec [wGod; wDeity] g) as F.
  inversion F as [|w q1 ws qs H1 F1 e1 e2]; subst.
  inversion F1 as [|w q2 ws qs' H2 F2 e3 e4]; subst.
  inversion F2; subst.
  exists q1, q2. split; [reflexivity|].
  destruct H1 as (_ & Hc & sorted & Hs & Ho). cbn in Hs, Hc.
  apply Permutation_length_1_inv in Hs. subst sorted. cbn in Ho.
  assert (Hopt : options q1 = ["God"; "God"])
    by (apply Permutation_length_2_inv in Ho; now destruct Ho).
  rewrite Hc, Hopt. repeat split.
  intros Hnd. inversion Hnd as [|? ? Hnotin _]. apply Hnotin. now left.
Qed.

End OptionValidity.

(** ** Claims on the session *)

Lemma reachable_after {E : JsEngine} st trace :
  reachable st -> reachable (after st trace).
Proof.
  revert st; induction trace as [|[env a] trace IH]; intros st H; simpl; trivial.
  destruct (press env st a) as [st' effs|] eqn:Hp; trivial.
  apply IH. eapply reach_press; eassumption.
Qed.

Lemma render_AwaitingAnswer i st :
  AwaitingAnswer i st ->
  exists q, nth_error (questions st) i = Some q /\
    render st = QuizScreen
      {| progressText := (i + 1, List.length (questions st));
         optionButtons := options q;
         optionsDisabled := false;
         footer := SubmitAnswerButton (negb (truthy (selectedAnswer st))) |}.
Proof.
  intros (Hl & Hq & Hi & Hlt & Hs).
  destruct (nth_error (questions st) i) as [q|] eqn:Hn.
  - exists q. split; trivial. unfold render. now rewrite Hl, Hq, Hi, Hn, Hs.
  - apply nth_error_None in Hn. lia.
Qed.

Lemma render_AnswerSubmitted i st :
  AnswerSubmitted i st ->
  exists q label, nth_error (questions st) i = Some q /\
    render st = QuizScreen
      {| progressText := (i + 1, List.length (questions st));
         optionButtons := options q;
         optionsDisabled := true;
         footer := NextButton label |}.
Proof.
  intros (Hl & Hq & Hi & Hlt & Hs).
  destruct (nth_error (questions st) i) as [q|] eqn:Hn.
  - exists q. eexists. split; trivial. unfold render.
    rewrite Hl, Hq, Hi, Hn, Hs. reflexivity.
  - apply nth_error_None in Hn. lia.
Qed.

(** C4.  In [AwaitingAnswer i] with an answer selected (one the handler's
    test [!selectedAnswer] lets through), submitting compares the
    selection with [questions[i].correctAnswer] as strings, adds 1 to the
    score exactly when they are equal, appends one answer recording that
    outcome, and leaves the session in [AnswerSubmitted i]. *)
Theorem handleSubmitAnswer_records_answer env st i q a :
  AwaitingAnswer i st ->
  nth_error (questions st) i = Some q ->
  selectedAnswer st = Some a ->
  truthy (Some a) = true ->
  exists st',
    handleSubmitAnswer env st = Done st' [] /\
    press env st PressSubmit = Done st' [] /\
    answers st' =
      answers st ++ [{| word_id := id (word q);
                        is_correct := String.eqb a (correctAnswer q);
                        time_spent := elapsedSeconds env st |}] /\
    (a = correctAnswer q -> score st' = score st + 1) /\
    (a <> correctAnswer q -> score st' = score st) /\
    AnswerSubmitted i st' /\
    questions st' = questions st /\
    selectedAnswer st' = Some a.
Proof.
  intros HA Hn Hsel Htr.
  destruct (render_AwaitingAnswer HA) as (q' & Hn' & Hr).
  destruct HA as (Hl & Hq & Hi & Hlt & Hs).
  unfold press. rewrite Hr. cbn [footer].
  unfold handleSubmitAnswer. rewrite Hsel, Htr, Hi, Hn. cbn [negb strictEq].
  eexists. split; [reflexivity|]. split; [reflexivity|]. cbn.
  repeat split; trivial.
  - intros ->. now rewrite String.eqb_refl.
  - intros Hne. apply String.eqb_neq in Hne. now rewrite Hne.
Qed.

(** The other side of the handler's test: with nothing selected, or with
    the empty string selected, submitting only shows the alert. *)
Lemma handleSubmitAnswer_without_selection env st :
  truthy (selectedAnswer st) = false ->
  handleSubmitAnswer env st = Done st [Alert "Please select an answer" ""].
Proof. intros H. unfold handleSubmitAnswer. now rewrite H. Qed.

(** C3, as the code has it.  In [AnswerSubmitted i] the footer holds the
    next button and no submit button: a submit press reaches no handler,
    raises nothing, and leaves the whole state (answers and score with
    it) as it was. *)
Theorem press_submit_after_submit_is_ignored env st i :
  AnswerSubmitted i st ->
  press env st PressSubmit = Done st [] /\
  forall v, render st = QuizScreen v -> exists label, footer v = NextButton label.
Proof.
  intros HA. destruct (render_AnswerSubmitted HA) as (q & label & Hn & Hr).
  split.
  - unfold press. now rewrite Hr.
  - intros v. rewrite Hr. intros [= <-]. now exists label.
Qed.

(** C7, as the code has it.  In [AwaitingAnswer i] the footer holds the
    submit button and no next button: a next press reaches no handler,
    raises nothing, and leaves the whole state (the current index with
    it) as it was. *)
Theorem press_next_before_submit_is_ignored env st i :
  AwaitingAnswer i st ->
  press env st PressNext = Done st [] /\
  forall v, render st = QuizScreen v ->
            exists disabled, footer v = SubmitAnswerButton disabled.
Proof.
  intros HA. destruct (render_AwaitingAnswer HA) as (q & Hn & Hr).
  split.
  - unfold press. now rewrite Hr.
  - intros v. rewrite Hr. intros [= <-]. eexists. reflexivity.
Qed.

Lemma press_next_on_last_question env st i :
  AnswerSubmitted i st -> S i = List.length (questions st) ->
  exists q,
    nth_error (questions st) i = Some q /\
    press env st PressNext = Done st (completeLesson env st) /\
    completeLesson env st =
      [HttpPost
         {| lesson_id := ("lesson_" ++ routeId env)%string;
            payload_answers :=
              answers st ++
              [{| word_id := id (word q);
                  is_correct := strictEq (selectedAnswer st) (correctAnswer q);
                  time_spent := elapsedSeconds env st |}];
            total_time := 900 |};
       if postSucceeds env then
         Alert "Lesson Complete!"
           ("You scored "
            ++ showNat (score st
                        + (if strictEq (selectedAnswer st) (correctAnswer q)
                           then 1 else 0))
            ++ " out of " ++ showNat (List.length (questions st)))%string
       else Alert "Error" "Failed to save progress"].
Proof.
  intros HA Hlast. destruct (render_AnswerSubmitted HA) as (q & label & Hn & Hr).
  destruct HA as (Hl & Hq & Hi & Hlt & Hs).
  exists q. split; trivial. split.
  - unfold press. rewrite Hr. cbn [footer]. unfold handleNextQuestion.
    replace (_ <? _)%Z with false; trivial.
    symmetry. apply Z.ltb_ge. lia.
  - unfold completeLesson. rewrite Hi, Hn. now destruct (postSucceeds env).
Qed.

(** C5, as the code has it.  The request sent on completion carries
    [total_time = 900] whatever the answers' [time_spent], and names the
    lesson; no percentage is computed: when the request succeeds the
    alert reports a count out of the number of questions. *)
Theorem completeLesson_total_time_is_constant env st i :
  AnswerSubmitted i st -> S i = List.length (questions st) ->
  exists body alert,
    press env st PressNext = Done st [HttpPost body; alert] /\
    total_time body = 900%Z /\
    lesson_id body = ("lesson_" ++ routeId env)%string /\
    (postSucceeds env = true ->
     exists k, alert = Alert "Lesson Complete!"
                         ("You scored " ++ showNat k ++ " out of "
                          ++ showNat (List.length (questions st)))%string).
Proof.
  intros HA Hlast.
  destruct (press_next_on_last_question env HA Hlast) as (q & _ & Hp & Hc).
  rewrite Hc in Hp. do 2 eexists. split; [exact Hp|]. cbn.
  repeat split. intros ->. eexists. reflexivity.
Qed.

(** C2.  Where it fails: in a session run through the screen, once the
    last question is answered [answers] holds one answer per question,
    and the next press sends them followed by one more answer to the last
    question: [n + 1] answers, the last two for the same word with the
    same outcome. *)
Theorem completeLesson_sends_last_answer_twice {E : JsEngine} env st i :
  reachable st ->
  AnswerSubmitted i st -> S i = List.length (questions st) ->
  exists body alert init a,
    press env st PressNext = Done st [HttpPost body; alert] /\
    List.length (answers st) = List.length (questions st) /\
    List.length (payload_answers body) = List.length (questions st) + 1 /\
    answers st = init ++ [a] /\
    payload_answers body =
      init ++ [a; {| word_id := word_id a; is_correct := is_correct a;
                     time_spent := elapsedSeconds env st |}].
Proof.
  intros Hr HA Hlast.
  destruct (press_next_on_last_question env HA Hlast) as (q & Hn & Hp & Hc).
  rewrite Hc in Hp.
  destruct (reachable_inv Hr) as (_ & _ & Hlen & _ & Hdup).
  destruct HA as (Hl & Hq & Hi & Hlt & Hs).
  rewrite Hs in Hlen. destruct (Hdup Hs) as (q' & init & a & Hn' & Ha & Hw & Hc').
  rewrite Hi, Hn in Hn'. injection Hn' as <-.
  do 2 eexists. exists init, a. split; [exact Hp|]. cbn.
  repeat split; trivial.
  - lia.
  - rewrite length_app. cbn. lia.
  - rewrite Ha, <- app_assoc, Hw, Hc'. reflexivity.
Qed.

(** ** The claims at sample sessions *)

Lemma oneWordSelected_awaiting : AwaitingAnswer 0 oneWordSelected.
Proof. by_evaluation. Defined.

Lemma oneWordSubmitted_submitted : AnswerSubmitted 0 oneWordSubmitted.
Proof. by_evaluation. Defined.

Lemma twoWordsStarted_awaiting : AwaitingAnswer 0 twoWordsStarted.
Proof. by_evaluation. Defined.

Lemma oneWordSubmitted_reachable :
  reachable (E := Scripted.engine) oneWordSubmitted.
Proof. apply reachable_after. apply reach_start. Defined.

(** The same lesson on the scripted engine: each question offers its
    correct answer twice. *)
Example startQuiz_shared_meaning_scripted :
  map options
    (questions (fst (startQuiz (E := Scripted.engine) 0
                       (loaded [wGod; wDeity]) [])))
  = [["God"; "God"]; ["God"; "God"]].
Proof. reflexivity. Qed.

(** C3 as stated fails: [handleSubmitAnswer] has no guard of its own.
    Run on a state whose answer is already submitted it raises nothing,
    appends a second answer and counts the score a second time. *)
Lemma handleSubmitAnswer_again_appends_again :
  AnswerSubmitted 0 oneWordSubmitted /\
  exists st',
    handleSubmitAnswer (atTime 7000) oneWordSubmitted = Done st' [] /\
    List.length (answers oneWordSubmitted) = 1 /\
    List.length (answers st') = 2 /\
    score oneWordSubmitted = 1 /\ score st' = 2.
Proof.
  split; [exact oneWordSubmitted_submitted|].
  eexists. split; [vm_compute; reflexivity|]. by_evaluation.
Qed.

Lemma press_submit_after_submit_is_ignored_witness :
  AnswerSubmitted 0 oneWordSubmitted /\
  press (atTime 7000) oneWordSubmitted PressSubmit = Done oneWordSubmitted [].
Proof.
  split; [exact oneWordSubmitted_submitted|].
  exact (proj1 (press_submit_after_submit_is_ignored (atTime 7000)
                  oneWordSubmitted_submitted)).
Defined.

(** C7 as stated fails: [handleNextQuestion] has no guard of its own.
    Run before any answer is submitted it raises nothing and moves to
    the next question. *)
Lemma handleNextQuestion_before_submit_advances :
  AwaitingAnswer 0 twoWordsStarted /\
  exists st',
    handleNextQuestion (atTime 2000) twoWordsStarted = Done st' [] /\
    currentQuestion twoWordsStarted = 0 /\ currentQuestion st' = 1.
Proof.
  split; [exact twoWordsStarted_awaiting|].
  eexists. split; [vm_compute; reflexivity|]. by_evaluation.
Qed.

Lemma press_next_before_submit_is_ignored_witness :
  AwaitingAnswer 0 twoWordsStarted /\
  press (atTime 2000) twoWordsStarted PressNext = Done twoWordsStarted [].
Proof.
  split; [exact twoWordsStarted_awaiting|].
  exact (proj1 (press_next_before_submit_is_ignored (atTime 2000)
                  twoWordsStarted_awaiting)).
Defined.

Lemma handleSubmitAnswer_records_answer_witness :
  AwaitingAnswer 0 oneWordSelected /\
  exists st',
    handleSubmitAnswer (atTime 6000) oneWordSelected = Done st' [] /\
    answers st' = [{| word_id := "w1"; is_correct := true; time_spent := 5 |}] /\
    score st' = 1 /\ AnswerSubmitted 0 st'.
Proof.
  split; [exact oneWordSelected_awaiting|].
  destruct (handleSubmitAnswer_records_answer (atTime 6000)
              (q := mkQuestion wGod ["God"] "God") (a := "God")
              oneWordSelected_awaiting eq_refl eq_refl eq_refl)
    as (st' & H1 & _ & H3 & H4 & _ & H6 & _).
  exists st'. repeat split; trivial; try apply H6.
  exact (H4 eq_refl).
Defined.

(** C5 as stated fails: one question answered after five seconds; the
    request carries [total_time = 900], which is neither the 5 seconds
    stored in [answers] nor the 11 seconds of the answers it sends. *)
Lemma completeLesson_total_time_is_not_the_sum :
  AnswerSubmitted 0 oneWordSubmitted /\
  exists body alert,
    press (atTime 7000) oneWordSubmitted PressNext
      = Done oneWordSubmitted [HttpPost body; alert] /\
    sumTimeSpent (answers oneWordSubmitted) = 5%Z /\
    sumTimeSpent (payload_answers body) = 11%Z /\
    total_time body = 900%Z.
Proof.
  split; [exact oneWordSubmitted_submitted|].
  do 2 eexists. split; [vm_compute; reflexivity|]. by_evaluation.
Qed.

Lemma completeLesson_total_time_is_constant_witness :
  AnswerSubmitted 0 oneWordSubmitted /\
  exists body alert,
    press (atTime 7000) oneWordSubmitted PressNext
      = Done oneWordSubmitted [HttpPost body; alert] /\
    total_time body = 900%Z.
Proof.
  split; [exact oneWordSubmitted_submitted|].
  destruct (completeLesson_total_time_is_constant (atTime 7000)
              oneWordSubmitted_submitted eq_refl)
    as (body & alert & H1 & H2 & _).
  now exists body, alert.
Defined.

Lemma completeLesson_sends_last_answer_twice_witness :
  reachable (E := Scripted.engine) oneWordSubmitted /\
  AnswerSubmitted 0 oneWordSubmitted /\
  exists body alert,
    press (atTime 7000) oneWordSubmitted PressNext
      = Done oneWordSubmitted [HttpPost body; alert] /\
    List.length (questions oneWordSubmitted) = 1 /\
    List.length (payload_answers body) = 2.
Proof.
  split; [exact oneWordSubmitted_reachable|].
  split; [exact oneWordSubmitted_submitted|].
  destruct (completeLesson_sends_last_answer_twice (atTime 7000)
              oneWordSubmitted_reachable oneWordSubmitted_submitted eq_refl)
    as (body & alert & init & a & H1 & _ & H3 & _).
  exists body, alert. repeat split; trivial.
Defined.

Lemma startQuiz_four_options_witness :
  4 <= List.length (words (loaded lesson4)) /\
  NoDup (map id (words (loaded lesson4))) /\
  Forall2 (fun w q => List.length (options q) = 4 /\
                      In (meaning w) (options q) /\
                      correctAnswer q = meaning w)
    lesson4
    (questions (fst (startQuiz (E := Scripted.engine) 0 (loaded lesson4)
                       [3 # 4; 1 # 4; 3 # 4]%Q))).
Proof.
  assert (H4 : 4 <= List.length (words (loaded lesson4))) by (cbn; lia).
  assert (Hnd : NoDup (map id (words (loaded lesson4)))).
  { cbn. repeat constructor; cbn; intuition discriminate. }
  split; [exact H4|]. split; [exact Hnd|].
  exact (proj2 (startQuiz_four_options (E := Scripted.engine) 0
                  (loaded lesson4) [3 # 4; 1 # 4; 3 # 4]%Q H4 Hnd)).
Defined.

(** C9 as stated fails: nothing the caller passes fixes the draws.  Two
    runs of [startQuiz], one after the other in one host and on the same
    lesson, order the options differently. *)
Lemma startQuiz_twice_gives_different_options :
  let run1 := startQuiz (E := Scripted.engine) 0 (loaded lesson4)
                [3 # 4; 3 # 4; 3 # 4]%Q in
  let run2 := startQuiz (E := Scripted.engine) 0 (loaded lesson4) (snd run1) in
  questions (fst run1) <> questions (fst run2).
Proof.
  cbv zeta. intros H. apply (f_equal (map options)) in H.
  vm_compute in H. discriminate H.
Qed.

(** ** Further properties of the session *)

(** What a press can do, case by case: nothing; select an option while no
    result is shown; submit a selection; move to the next question; or,
    on the last question, fire [completeLesson] and leave the state as it
    is. *)
Lemma press_cases env st a st' effs :
  press env st a = Done st' effs ->
  (st' = st /\ effs = []) \/
  (exists o, a = PressOption o /\ showResult st = false /\ effs = [] /\
     st' = {| loading := loading st; words := words st; quizMode := quizMode st;
              currentQuestion := currentQuestion st; questions := questions st;
              selectedAnswer := Some o; showResult := showResult st;
              score := score st; answers := answers st;
              questionStartTime := questionStartTime st |}) \/
  (exists q, a = PressSubmit /\ showResult st = false /\ effs = [] /\
     truthy (selectedAnswer st) = true /\
     nth_error (questions st) (currentQuestion st) = Some q /\
     st' = {| loading := loading st; words := words st; quizMode := quizMode st;
              currentQuestion := currentQuestion st; questions := questions st;
              selectedAnswer := selectedAnswer st; showResult := true;
              score := if strictEq (selectedAnswer st) (correctAnswer q)
                       then score st + 1 else score st;
              answers := answers st ++
                [{| word_id := id (word q);
                    is_correct := strictEq (selectedAnswer st) (correctAnswer q);
                    time_spent := elapsedSeconds env st |}];
              questionStartTime := questionStartTime st |}) \/
  (a = PressNext /\ showResult st = true /\ effs = [] /\
     S (currentQuestion st) < List.length (questions st) /\
     st' = {| loading := loading st; words := words st; quizMode := quizMode st;
              currentQuestion := currentQuestion st + 1; questions := questions st;
              selectedAnswer := None; showResult := false;
              score := score st; answers := answers st;
              questionStartTime := now env |}) \/
  (a = PressNext /\ showResult st = true /\ st' = st /\
     S (currentQuestion st) = List.length (questions st) /\
     effs = completeLesson env st).
Proof.
  unfold press, render.
  destruct (loading st) eqn:Hl; [intros [= <- <-]; now left|].
  destruct (quizMode st) eqn:Hqm; [|intros [= <- <-]; now left].
  destruct (nth_error (questions st) (currentQuestion st)) as [q|] eqn:Hn;
    [|discriminate].
  assert (Hlt : currentQuestion st < List.length (questions st))
    by (apply nth_error_Some; congruence).
  cbn [footer optionButtons optionsDisabled].
  destruct a.
  - destruct (existsb _ _ && negb (showResult st)) eqn:Hen; intros [= <- <-];
      [|now left].
    apply andb_prop in Hen as [_ Hsr]. apply negb_true_iff in Hsr.
    right; left. exists option. unfold handleAnswerSelect.
    rewrite Hsr, ?Hl, ?Hqm. auto.
  - destruct (showResult st) eqn:Hsr; cbn [negb]; [intros [= <- <-]; now left|].
    destruct (truthy (selectedAnswer st)) eqn:Htr; cbn [negb];
      [|intros [= <- <-]; now left].
    unfold handleSubmitAnswer. rewrite Htr, Hn. cbn [negb]. intros [= <- <-].
    right; right; left. exists q. rewrite ?Hl, ?Hqm. auto 10.
  - destruct (showResult st) eqn:Hsr; cbn [negb]; [|intros [= <- <-]; now left].
    unfold handleNextQuestion.
    destruct (Z.of_nat (currentQuestion st) <? _)%Z eqn:Hc; intros [= <- <-].
    + apply Z.ltb_lt in Hc. right; right; right; left. rewrite ?Hl, ?Hqm.
      repeat split; trivial. lia.
    + apply Z.ltb_ge in Hc. right; right; right; right.
      repeat split; trivial. lia.
Qed.

Ltac press_case Hp :=
  apply press_cases in Hp;
  destruct Hp as
    [[-> ->]
    |[(?o & -> & ?Hsr & -> & ->)
     |[(?q & -> & ?Hsr & -> & ?Htr & ?Hn & ->)
      |[(-> & ?Hsr & -> & ?Hlt & ->)
       |(-> & ?Hsr & -> & ?Hlast & ->)]]]].

Lemma countCorrect_app l r :
  countCorrect (l ++ [r]) = countCorrect l + (if is_correct r then 1 else 0).
Proof.
  unfold countCorrect. rewrite filter_app, length_app. cbn.
  now destruct (is_correct r).
Qed.

Lemma countCorrect_le l : countCorrect l <= List.length l.
Proof.
  unfold countCorrect. induction l as [|a l IH]; cbn; trivial.
  destruct (is_correct a); cbn; lia.
Qed.

Lemma firstn_snoc_nth_error {A} (l : list A) n x :
  nth_error l n = Some x -> firstn (S n) l = firstn n l ++ [x].
Proof.
  revert n; induction l as [|a l IH]; intros [|n] H; try discriminate.
  - now injection H as ->.
  - cbn in H. cbn [firstn app]. f_equal. now apply IH.
Qed.

(** What [startQuiz] fixes for the rest of the session: the questions are
    those of the lesson's words, in order, and each offers its correct
    answer. *)
Lemma reachable_questions {E : JsEngine} st :
  reachable st ->
  map word (questions st) = words st /\
  Forall (fun q => In (correctAnswer q) (options q)) (questions st).
Proof.
  induction 1 as [t0 ws t g | env st a st' effs _ IH Hp].
  - destruct (startQuiz_fields t (loadLesson_ok ws (mounted t0)) g)
      as (_ & H2 & _ & _ & H5 & _).
    rewrite H2, H5. cbn [loadLesson_ok words].
    pose proof (generateQuestions_spec ws g) as F. split.
    + induction F as [|w q l l' (Hw & _) _ IHF]; cbn; [trivial|].
      now rewrite Hw, IHF.
    + eapply Forall2_Forall_r; [|exact F].
      intros w q _ (_ & Hc & sorted & _ & H2'). rewrite Hc.
      apply (Permutation_in _ H2'), in_or_app. right. now left.
  - press_case Hp; exact IH.
Qed.

(** X1.  The score is the number of stored answers marked correct, and it
    never exceeds the number of questions. *)
Theorem reachable_score_counts_correct_answers {E : JsEngine} st :
  reachable st ->
  score st = countCorrect (answers st) /\
  score st <= List.length (questions st).
Proof.
  intros Hr.
  assert (Hs : score st = countCorrect (answers st)).
  { induction Hr as [t0 ws t g | env st a st' effs _ IH Hp].
    - destruct (startQuiz_fields t (loadLesson_ok ws (mounted t0)) g)
        as (_ & _ & _ & _ & _ & _ & _ & H8 & H9 & _).
      now rewrite H8, H9.
    - press_case Hp; trivial. cbn [score answers].
      rewrite countCorrect_app. cbn [is_correct].
      destruct (strictEq _ _); lia. }
  split; trivial. rewrite Hs.
  destruct (reachable_inv Hr) as (_ & _ & Hlen & Hcur & Hlast).
  pose proof (countCorrect_le (answers st)) as Hle.
  destruct (showResult st).
  - destruct (Hlast eq_refl) as (q & _ & _ & Hn & _).
    assert (currentQuestion st < List.length (questions st))
      by (apply nth_error_Some; congruence).
    lia.
  - lia.
Qed.

(** X2.  The stored answers are for the lesson's words, in lesson order,
    one each, with no gap and no repeat: the [word_id]s of [answers] are
    the ids of the first words of the lesson. *)
Theorem reachable_answers_follow_lesson {E : JsEngine} st :
  reachable st ->
  map word_id (answers st)
  = map id (firstn (List.length (answers st)) (words st)).
Proof.
  induction 1 as [t0 ws t g | env st a st' effs Hr IH Hp].
  - destruct (startQuiz_fields t (loadLesson_ok ws (mounted t0)) g)
      as (_ & _ & _ & _ & _ & _ & _ & _ & H9 & _).
    now rewrite H9.
  - destruct (reachable_inv Hr) as (_ & _ & Hlen & _).
    destruct (reachable_questions Hr) as [Hw _].
    press_case Hp; trivial. cbn [answers words].
    rewrite Hsr in Hlen. rewrite length_app, map_app, IH, Hlen.
    cbn [List.length map word_id].
    replace (currentQuestion st + 0 + 1) with (S (currentQuestion st)) by lia.
    rewrite Nat.add_0_r.
    assert (Hnw : nth_error (words st) (currentQuestion st) = Some (word q))
      by (rewrite <- Hw; now apply map_nth_error).
    rewrite (firstn_snoc_nth_error _ _ Hnw), map_app. reflexivity.
Qed.

(** X3.  A quiz started on a lesson with at least one word never throws:
    every press ends in a state, whatever is pressed and whenever. *)
Theorem reachable_press_never_throws {E : JsEngine} env st a :
  reachable st -> words st <> [] -> press env st a <> TypeError.
Proof.
  intros Hr Hne.
  destruct (reachable_inv Hr) as (Hl & Hq & _ & Hcur & _).
  destruct (reachable_questions Hr) as [Hw _].
  assert (Hlt : currentQuestion st < List.length (questions st)).
  { destruct (questions st) as [|q qs]; cbn in *; [congruence|lia]. }
  unfold press, render. rewrite Hl, Hq.
  destruct (nth_error (questions st) (currentQuestion st)) as [q|] eqn:Hn.
  2: apply nth_error_None in Hn; lia.
  cbn [footer optionButtons optionsDisabled].
  destruct a.
  - now destruct (_ && _).
  - destruct (showResult st); cbn [negb]; [discriminate|].
    destruct (truthy (selectedAnswer st)) eqn:Htr; cbn [negb]; [|discriminate].
    unfold handleSubmitAnswer. now rewrite Htr, Hn.
  - destruct (showResult st); cbn [negb]; [|discriminate].
    unfold handleNextQuestion. now destruct (_ <? _)%Z.
Qed.

(** X4.  A press never changes the lesson or the questions.  Only the
    next button moves the current index, by exactly one, only while a
    result is shown, and never past the last question. *)
Theorem press_moves_index_forward_by_one env st a st' effs :
  press env st a = Done st' effs ->
  words st' = words st /\ questions st' = questions st /\
  (currentQuestion st' = currentQuestion st \/
   (a = PressNext /\ showResult st = true /\
    currentQuestion st' = S (currentQuestion st) /\
    currentQuestion st' < List.length (questions st'))).
Proof.
  intros Hp. press_case Hp; cbn; repeat split; auto.
  right. repeat split; trivial; lia.
Qed.

(** X5.  Over any sequence of presses the stored answers only grow at
    the end (none is edited or removed), and neither the score nor the
    current index ever goes down. *)
Theorem after_keeps_answers_and_progress st trace :
  (exists more, answers (after st trace) = answers st ++ more) /\
  score st <= score (after st trace) /\
  currentQuestion st <= currentQuestion (after st trace) /\
  questions (after st trace) = questions st.
Proof.
  revert st; induction trace as [|[env a] trace IH]; intros st; cbn [after].
  - repeat split; trivial. exists []. now rewrite app_nil_r.
  - destruct (press env st a) as [st1 effs|] eqn:Hp.
    2: { repeat split; trivial. exists []. now rewrite app_nil_r. }
    destruct (IH st1) as ((more & Ha) & Hs & Hc & Hq).
    rewrite Ha, Hq.
    press_case Hp; cbn in *; repeat split; eauto; try lia.
    + eexists. rewrite <- app_assoc. reflexivity.
    + destruct (strictEq _ _); lia.
Qed.

(** X6.  The only alerts a press can raise are the two of
    [completeLesson].  The alert [Please select an answer] never shows:
    the submit button is disabled by the very test that guards the alert
    in [handleSubmitAnswer]. *)
Theorem press_never_asks_to_select env st a st' effs title message :
  press env st a = Done st' effs ->
  In (Alert title message) effs ->
  title = "Error" \/ title = "Lesson Complete!".
Proof.
  intros Hp Hin. press_case Hp; try contradiction.
  unfold completeLesson in Hin.
  destruct (nth_error (questions st) (currentQuestion st)) as [q|].
  - destruct (postSucceeds env); cbn in Hin;
      destruct Hin as [Hin|[Hin|[]]]; try discriminate;
      injection Hin as <- _; auto.
  - destruct Hin as [Hin|[]]. injection Hin as <- _. auto.
Qed.

(** X7.  The request to [/api/lessons/complete] is sent by one press
    only: the next button, while the result of the last question is
    shown; and that press leaves the state as it was. *)
Theorem press_posts_only_after_last_question env st a st' effs body :
  press env st a = Done st' effs ->
  In (HttpPost body) effs ->
  a = PressNext /\ showResult st = true /\ st' = st /\
  S (currentQuestion st) = List.length (questions st) /\
  lesson_id body = ("lesson_" ++ routeId env)%string.
Proof.
  intros Hp Hin. press_case Hp; try contradiction.
  repeat split; trivial.
  unfold completeLesson in Hin.
  destruct (nth_error (questions st) (currentQuestion st)) as [q|].
  - destruct (postSucceeds env); cbn in Hin;
      destruct Hin as [Hin|[Hin|[]]]; try discriminate;
      now injection Hin as <-.
  - destruct Hin as [Hin|[]]. discriminate.
Qed.

(** X8.  Every question of a running quiz can be answered correctly:
    its correct answer is among the option buttons, and, unless it is the
    empty string, pressing it and then the submit button stores an answer
    marked correct and adds one to the score. *)
Theorem correct_option_can_be_submitted {E : JsEngine} env1 env2 st i q :
  reachable st ->
  AwaitingAnswer i st ->
  nth_error (questions st) i = Some q ->
  correctAnswer q <> "" ->
  exists st1 st2,
    press env1 st (PressOption (correctAnswer q)) = Done st1 [] /\
    press env2 st1 PressSubmit = Done st2 [] /\
    score st2 = score st + 1 /\
    answers st2 = answers st ++ [{| word_id := id (word q);
                                    is_correct := true;
                                    time_spent := elapsedSeconds env2 st |}] /\
    AnswerSubmitted i st2.
Proof.
  intros Hr HA Hn Hne.
  destruct (reachable_questions Hr) as [_ Hall].
  assert (Hin : In (correctAnswer q) (options q)).
  { rewrite Forall_forall in Hall. apply Hall. eapply nth_error_In, Hn. }
  destruct (render_AwaitingAnswer HA) as (q' & Hn' & Hrd).
  rewrite Hn in Hn'. injection Hn' as <-.
  pose proof HA as (Hl & Hq & Hi & Hlt & Hs).
  assert (Hex : existsb (String.eqb (correctAnswer q)) (options q) = true).
  { apply existsb_exists. exists (correctAnswer q). split; trivial.
    apply String.eqb_refl. }
  eexists. eexists. split.
  { unfold press. rewrite Hrd. cbn [optionButtons optionsDisabled negb].
    rewrite Hex. cbn [andb]. unfold handleAnswerSelect. rewrite Hs.
    reflexivity. }
  assert (Htr : truthy (Some (correctAnswer q)) = true).
  { destruct (correctAnswer q); [congruence|reflexivity]. }
  split.
  { unfold press, render. cbn [loading quizMode questions currentQuestion
                                 showResult selectedAnswer].
    rewrite Hl, Hq, Hi, Hn, ?Hs. cbn [negb footer]. rewrite Htr. cbn [negb].
    unfold handleSubmitAnswer.
    cbn [loading quizMode questions currentQuestion showResult selectedAnswer].
    rewrite Htr, ?Hi, Hn. cbn [negb]. reflexivity. }
  cbn. rewrite String.eqb_refl. unfold AnswerSubmitted. cbn.
  repeat split; trivial.
Qed.

(** ** Further properties of question generation *)

Section GenerationExtras.
Context {E : JsEngine}.

Lemma others_subset ws w o : In o (others ws w) -> In o (map meaning ws).
Proof.
  unfold others. intros H. apply in_map_iff in H as (w' & <- & Hf).
  apply filter_In in Hf as [Hin _]. now apply in_map.
Qed.

(** With unique ids, the meanings of the other words followed by the
    word's own meaning are the lesson's meanings, rearranged. *)
Lemma others_with_own_meaning ws w :
  NoDup (map id ws) -> In w ws ->
  Permutation (map meaning ws) (others ws w ++ [meaning w]).
Proof.
  unfold others. induction ws as [|a l IH]; cbn [map filter]; intros Hnd Hin.
  - contradiction.
  - inversion Hnd as [|? ? Hnotin Hnd']; subst.
    destruct (String.eqb_spec (id a) (id w)) as [e|ne]; cbn [negb].
    + assert (a = w).
      { destruct Hin as [|Hin]; trivial. exfalso. apply Hnotin.
        rewrite e. now apply in_map. }
      subst a. rewrite filter_other_ids_all by assumption.
      apply Permutation_cons_append.
    + destruct Hin as [->|Hin]; [congruence|].
      cbn [map app]. apply perm_skip. now apply IH.
Qed.

(** X9.  [startQuiz] invents no option: every option of every question
    is the meaning of some word of the lesson. *)
Theorem startQuiz_options_are_lesson_meanings t st g :
  Forall (fun q => forall o, In o (options q) -> In o (map meaning (words st)))
    (questions (fst (startQuiz t st g))).
Proof.
  rewrite startQuiz_questions.
  eapply Forall2_Forall_r; [|apply generateQuestions_spec].
  intros w q Hin (_ & _ & sorted & H1 & H2) o Ho. cbv beta in *.
  apply (Permutation_in _ (Permutation_sym H2)) in Ho.
  apply in_app_or in Ho as [Ho|[<-|[]]].
  - apply In_slice0 in Ho.
    apply (Permutation_in _ (Permutation_sym H1)) in Ho.
    eapply others_subset, Ho.
  - now apply in_map.
Qed.

(** X10.  On a lesson of at most four words with unique ids nothing is
    left to choose: the options of every question are the meanings of all
    the words of the lesson, rearranged (so a lesson of [n] words gives
    [n] options, a one-word lesson a single option). *)
Theorem startQuiz_small_lesson_offers_all_meanings t st g :
  List.length (words st) <= 4 ->
  NoDup (map id (words st)) ->
  Forall (fun q => Permutation (map meaning (words st)) (options q))
    (questions (fst (startQuiz t st g))).
Proof.
  intros Hlen Hnd. rewrite startQuiz_questions.
  eapply Forall2_Forall_r; [|apply generateQuestions_spec].
  intros w q Hin (_ & _ & sorted & H1 & H2). cbv beta in *.
  assert (Hs : slice0 3 sorted = sorted).
  { unfold slice0. apply firstn_all2. rewrite <- (Permutation_length H1).
    assert (S (List.length (others (words st) w)) = List.length (words st))
      by (apply others_length; trivial).
    lia. }
  rewrite Hs in H2.
  rewrite (@others_with_own_meaning (words st) w Hnd Hin), <- H2.
  now apply Permutation_app_tail.
Qed.

(** X11.  Whatever the lesson and whatever the engine draws, a question
    has at least one option and at most four. *)
Theorem startQuiz_option_count_bounds t st g :
  Forall (fun q => 1 <= List.length (options q) <= 4)
    (questions (fst (startQuiz t st g))).
Proof.
  rewrite startQuiz_questions.
  eapply Forall2_Forall_r; [|apply generateQuestions_spec].
  intros w q _ (_ & _ & sorted & H1 & H2). cbv beta.
  rewrite <- (Permutation_length H2), length_app. unfold slice0.
  rewrite length_firstn. cbn [List.length]. lia.
Qed.

End GenerationExtras.

(** ** The further properties at sample sessions *)

Lemma oneWordStarted_reachable :
  reachable (E := Scripted.engine) oneWordStarted.
Proof. apply (reach_start (E := Scripted.engine) 0 [wGod] 1000 []). Defined.

Lemma oneWordStarted_awaiting : AwaitingAnswer 0 oneWordStarted.
Proof. by_evaluation. Defined.

Lemma reachable_score_counts_correct_answers_witness :
  reachable (E := Scripted.engine) oneWordSubmitted /\
  score oneWordSubmitted = 1 /\
  countCorrect (answers oneWordSubmitted) = 1 /\
  score oneWordSubmitted <= List.length (questions oneWordSubmitted).
Proof.
  split; [exact oneWordSubmitted_reachable|].
  split; [reflexivity|]. split; [reflexivity|].
  exact (proj2 (reachable_score_counts_correct_answers
                  oneWordSubmitted_reachable)).
Defined.

Lemma reachable_answers_follow_lesson_witness :
  reachable (E := Scripted.engine) oneWordSubmitted /\
  map word_id (answers oneWordSubmitted) = ["w1"] /\
  map word_id (answers oneWordSubmitted)
  = map id (firstn (List.length (answers oneWordSubmitted))
              (words oneWordSubmitted)).
Proof.
  split; [exact oneWordSubmitted_reachable|]. split; [reflexivity|].
  exact (reachable_answers_follow_lesson oneWordSubmitted_reachable).
Defined.

Lemma reachable_press_never_throws_witness :
  reachable (E := Scripted.engine) oneWordSubmitted /\
  words oneWordSubmitted <> [] /\
  press (atTime 7000) oneWordSubmitted PressSubmit <> TypeError.
Proof.
  assert (Hne : words oneWordSubmitted <> []) by (vm_compute; discriminate).
  split; [exact oneWordSubmitted_reachable|]. split; [exact Hne|].
  exact (reachable_press_never_throws (atTime 7000) PressSubmit
           oneWordSubmitted_reachable Hne).
Defined.

Lemma press_moves_index_forward_by_one_witness :
  exists st',
    press (atTime 7000) twoWordsSubmitted PressNext = Done st' [] /\
    currentQuestion twoWordsSubmitted = 0 /\ currentQuestion st' = 1 /\
    questions st' = questions twoWordsSubmitted.
Proof.
  eexists. split; [vm_compute; reflexivity|].
  split; [reflexivity|]. split; [reflexivity|].
  refine (proj1 (proj2 (@press_moves_index_forward_by_one
                          (atTime 7000) twoWordsSubmitted PressNext _ [] _))).
  vm_compute. reflexivity.
Defined.

Lemma press_never_asks_to_select_witness :
  exists st' effs,
    press (atTime 7000) oneWordSubmitted PressNext = Done st' effs /\
    In (Alert "Lesson Complete!" "You scored 2 out of 1") effs /\
    ("Lesson Complete!" = "Error" \/ "Lesson Complete!" = "Lesson Complete!").
Proof.
  assert (Hp : press (atTime 7000) oneWordSubmitted PressNext
               = Done oneWordSubmitted
                   (completeLesson (atTime 7000) oneWordSubmitted))
    by (vm_compute; reflexivity).
  assert (Hin : In (Alert "Lesson Complete!" "You scored 2 out of 1")
                  (completeLesson (atTime 7000) oneWordSubmitted))
    by (vm_compute; auto).
  do 2 eexists. split; [exact Hp|]. split; [exact Hin|].
  exact (@press_never_asks_to_select _ _ _ _ _ _ _ Hp Hin).
Defined.

Lemma press_posts_only_after_last_question_witness :
  exists st' effs body,
    press (atTime 7000) oneWordSubmitted PressNext = Done st' effs /\
    In (HttpPost body) effs /\
    showResult oneWordSubmitted = true /\
    S (currentQuestion oneWordSubmitted)
    = List.length (questions oneWordSubmitted).
Proof.
  assert (Hp : press (atTime 7000) oneWordSubmitted PressNext
               = Done oneWordSubmitted
                   (completeLesson (atTime 7000) oneWordSubmitted))
    by (vm_compute; reflexivity).
  assert (Hin : In (HttpPost
                      {| lesson_id := "lesson_1";
                         payload_answers :=
                           [{| word_id := "w1"; is_correct := true;
                               time_spent := 5 |};
                            {| word_id := "w1"; is_correct := true;
                               time_spent := 6 |}];
                         total_time := 900 |})
                  (completeLesson (atTime 7000) oneWordSubmitted))
    by (vm_compute; auto).
  do 3 eexists. split; [exact Hp|]. split; [exact Hin|].
  destruct (@press_posts_only_after_last_question _ _ _ _ _ _ Hp Hin)
    as (_ & Hs & _ & Hlast & _).
  split; trivial.
Defined.

Lemma correct_option_can_be_submitted_witness :
  reachable (E := Scripted.engine) oneWordStarted /\
  AwaitingAnswer 0 oneWordStarted /\
  exists st1 st2,
    press (atTime 4000) oneWordStarted (PressOption "God") = Done st1 [] /\
    press (atTime 6000) st1 PressSubmit = Done st2 [] /\
    score st2 = score oneWordStarted + 1.
Proof.
  split; [exact oneWordStarted_reachable|].
  split; [exact oneWordStarted_awaiting|].
  assert (Hne : "God" <> "") by discriminate.
  destruct (@correct_option_can_be_submitted Scripted.engine
              (atTime 4000) (atTime 6000) oneWordStarted 0
              (mkQuestion wGod ["God"] "God")
              oneWordStarted_reachable oneWordStarted_awaiting eq_refl Hne)
    as (st1 & st2 & H1 & H2 & H3 & _).
  now exists st1, st2.
Defined.

Lemma startQuiz_small_lesson_offers_all_meanings_witness :
  List.length (words (loaded [wGod; wLord])) <= 4 /\
  NoDup (map id (words (loaded [wGod; wLord]))) /\
  Forall (fun q => Permutation ["God"; "Lord"] (options q))
    (questions twoWordsStarted).
Proof.
  assert (H4 : List.length (words (loaded [wGod; wLord])) <= 4) by (cbn; lia).
  assert (Hnd : NoDup (map id (words (loaded [wGod; wLord])))).
  { cbn. repeat constructor; cbn; intuition discriminate. }
  split; [exact H4|]. split; [exact Hnd|].
  exact (@startQuiz_small_lesson_offers_all_meanings Scripted.engine 1000
           (loaded [wGod; wLord]) [] H4 Hnd).
Defined.

Lemma startQuiz_options_valid_if_meanings_distinct_witness :
  NoDup (map meaning (words (loaded lesson4))) /\
  Forall (fun q =>
            count_occ string_dec (options q) (correctAnswer q) = 1 /\
            NoDup (options q))
    (questions (fst (startQuiz (E := Scripted.engine) 0 (loaded lesson4)
                       [3 # 4; 1 # 4; 3 # 4]%Q))).
Proof.
  assert (Hnd : NoDup (map meaning (words (loaded lesson4)))).
  { cbn. repeat constructor; cbn; intuition discriminate. }
  split; [exact Hnd|].
  exact (@startQuiz_options_valid_if_meanings_distinct Scripted.engine 0
           (loaded lesson4) [3 # 4; 1 # 4; 3 # 4]%Q Hnd).
Defined.

(** * The quiz of the AdvancedLessonScreen component

    The second lesson screen takes its questions from the server and has
    four quiz types.  Embedded here: its quiz state, [startAdvancedQuiz]
    once the server has answered, [submitAnswer], the scoring step of
    [analyzeVoiceRecording], [nextQuestion], [completeQuiz],
    [getEncouragementMessage], and the part of the render function that
    decides which of them the learner can reach.  Recording, audio
    playback and the requests themselves are outside the model; what they
    deliver is an input of the event. *)

Module Advanced.

(** [interface QuizQuestion]; an optional field is [None] when absent. *)
Record QuizQuestion := mkQuestion {
  word_id : string;
  arabic : string;
  transliteration : string;
  meaning : string;
  options : option (list string);
  correct_answer : option string;
  question_text : option string;
  answer : option string;
  instruction : option string;
  target_pronunciation : option string
}.

(** [interface AdvancedQuiz] *)
Record AdvancedQuiz := mkQuiz {
  lesson_id : string;
  quiz_type : string;
  total_questions : Z;
  questions : list QuizQuestion
}.

Inductive QuizType := multiple_choice | fill_blank | voice_recognition | writing.

Inductive Mode := study | quiz.

(** The [useState] cells the quiz reads or writes. *)
Record State := mkState {
  loading : bool;
  words : list Word;
  currentMode : Mode;
  quizType : QuizType;
  currentQuiz : option AdvancedQuiz;
  currentQuestion : nat;
  userAnswer : string;
  showResult : bool;
  score : nat
}.

(** The state at mount. *)
Definition mounted : State :=
  {| loading := true; words := []; currentMode := study;
     quizType := multiple_choice; currentQuiz := None; currentQuestion := 0;
     userAnswer := ""; showResult := false; score := 0 |}.

(** What the host computes and the model leaves to it: the two string
    methods, and the floating-point percentage
    [((score / d) * 100).toFixed(0)] with its [parseInt]. *)
Class Host := {
  toLowerCase : string -> string;
  trim : string -> string;
  finalScoreText : nat -> nat -> string;
  parseInt : string -> Z
}.

Inductive Outcome :=
| Done (st : State) (effects : list Effect)
| TypeError.

(** [loadLesson] after a successful response. *)
Definition loadLesson_ok (ws : list Word) (st : State) : State :=
  {| loading := false; words := ws; currentMode := currentMode st;
     quizType := quizType st; currentQuiz := currentQuiz st;
     currentQuestion := currentQuestion st; userAnswer := userAnswer st;
     showResult := showResult st; score := score st |}.

(** [startAdvancedQuiz] once the server has answered with [data]. *)
Definition startAdvancedQuiz_ok (data : AdvancedQuiz) (st : State) : State :=
  {| loading := false; words := words st; currentMode := quiz;
     quizType := quizType st; currentQuiz := Some data;
     currentQuestion := 0; userAnswer := ""; showResult := false;
     score := 0 |}.

(** [startAdvancedQuiz] when the request fails: the alert, and
    [setLoading(false)] in [finally]. *)
Definition startAdvancedQuiz_failed (st : State) : State * list Effect :=
  ({| loading := false; words := words st; currentMode := currentMode st;
      quizType := quizType st; currentQuiz := currentQuiz st;
      currentQuestion := currentQuestion st; userAnswer := userAnswer st;
      showResult := showResult st; score := score st |},
   [Alert "Error" "Failed to create quiz"]).

(** [getEncouragementMessage] *)
Definition getEncouragementMessage (score : Z) : string :=
  if (90 <=? score)%Z then "Excellent! ماشاء الله (MashaAllah)"
  else if (80 <=? score)%Z then "Very good! Keep up the great work!"
  else if (70 <=? score)%Z then "Good job! Practice makes perfect."
  else if (60 <=? score)%Z then "Not bad! Review and try again."
  else "Keep practicing! Allah rewards effort.".

Definition setScore (n : nat) (st : State) : State :=
  {| loading := loading st; words := words st; currentMode := currentMode st;
     quizType := quizType st; currentQuiz := currentQuiz st;
     currentQuestion := currentQuestion st; userAnswer := userAnswer st;
     showResult := showResult st; score := n |}.

Definition setShowResult (b : bool) (st : State) : State :=
  {| loading := loading st; words := words st; currentMode := currentMode st;
     quizType := quizType st; currentQuiz := currentQuiz st;
     currentQuestion := currentQuestion st; userAnswer := userAnswer st;
     showResult := b; score := score st |}.

Definition setUserAnswer (a : string) (st : State) : State :=
  {| loading := loading st; words := words st; currentMode := currentMode st;
     quizType := quizType st; currentQuiz := currentQuiz st;
     currentQuestion := currentQuestion st; userAnswer := a;
     showResult := showResult st; score := score st |}.

Definition setQuizType (t : QuizType) (st : State) : State :=
  {| loading := loading st; words := words st; currentMode := currentMode st;
     quizType := t; currentQuiz := currentQuiz st;
     currentQuestion := currentQuestion st; userAnswer := userAnswer st;
     showResult := showResult st; score := score st |}.

Definition setCurrentMode (m : Mode) (st : State) : State :=
  {| loading := loading st; words := words st; currentMode := m;
     quizType := quizType st; currentQuiz := currentQuiz st;
     currentQuestion := currentQuestion st; userAnswer := userAnswer st;
     showResult := showResult st; score := score st |}.

Section Handlers.
Context {H : Host}.

(** The comparison of [submitAnswer], by quiz type.  A missing
    [correct_answer] or [answer] is [undefined], which no string equals. *)
Definition isCorrectAnswer (t : QuizType) (question : QuizQuestion)
    (userAnswer : string) : bool :=
  match t with
  | multiple_choice =>
      match correct_answer question with
      | Some c => String.eqb userAnswer c
      | None => false
      end
  | fill_blank | writing =>
      match answer question with
      | Some a => String.eqb (trim (toLowerCase userAnswer)) (trim (toLowerCase a))
      | None => false
      end
  | voice_recognition => false
  end.

(** [submitAnswer] *)
Definition submitAnswer (st : State) : Outcome :=
  match currentQuiz st with
  | None => Done st []
  | Some qz =>
      match quizType st with
      | voice_recognition => Done st []
      | t =>
          match nth_error (questions qz) (currentQuestion st) with
          | None => TypeError
          | Some question =>
              let isCorrect := isCorrectAnswer t question (userAnswer st) in
              Done (setShowResult true
                      (if isCorrect then setScore (score st + 1) st else st))
                   []
          end
      end
  end.

(** The end of [analyzeVoiceRecording], the analysis having arrived with
    [overall_score] and its report having been shown: a score from 70
    counts as correct. *)
Definition analyzeVoiceRecording_ok (overall_score : Q) (report : string)
    (st : State) : Outcome :=
  match currentQuiz st with
  | None => Done st []
  | Some qz =>
      match nth_error (questions qz) (currentQuestion st) with
      | None => Done st [Alert "Error" "Unable to analyze pronunciation"]
      | Some _ =>
          let isCorrect := Qle_bool 70 overall_score in
          Done (setShowResult true
                  (if isCorrect then setScore (score st + 1) st else st))
               [Alert "Pronunciation Analysis" report]
      end
  end.

(** [completeQuiz], called with a quiz in place; the divisor is
    [questions.length || 1]. *)
Definition completeQuiz (qz : AdvancedQuiz) (st : State) : list Effect :=
  let n := List.length (questions qz) in
  let finalScore := finalScoreText (score st) (if n =? 0 then 1 else n) in
  [Alert "Quiz Complete!"
     ("Your score: " ++ showNat (score st) ++ "/" ++ showNat n
      ++ " (" ++ finalScore ++ "%)"
      ++ String (ascii_of_nat 10) (String (ascii_of_nat 10) "")
      ++ getEncouragementMessage (parseInt finalScore))%string].

(** [nextQuestion] *)
Definition nextQuestion (st : State) : Outcome :=
  match currentQuiz st with
  | None => Done st []
  | Some qz =>
      if (Z.of_nat (currentQuestion st)
          <? Z.of_nat (List.length (questions qz)) - 1)%Z
      then
        Done {| loading := loading st; words := words st;
                currentMode := currentMode st; quizType := quizType st;
                currentQuiz := currentQuiz st;
                currentQuestion := currentQuestion st + 1;
                userAnswer := ""; showResult := false; score := score st |}
             []
      else Done st (completeQuiz qz st)
  end.

(** The [Review Lesson] button of the completion alert. *)
Definition reviewLesson (st : State) : State :=
  {| loading := loading st; words := words st; currentMode := study;
     quizType := quizType st; currentQuiz := None;
     currentQuestion := currentQuestion st; userAnswer := userAnswer st;
     showResult := showResult st; score := score st |}.

End Handlers.

(** ** What the screen offers *)

(** The controls of the quiz view that reach the quiz state. *)
Inductive AnswerControl :=
| RecordButton (disabled : bool)
| OptionButtons (opts : list string) (disabled : bool)
| AnswerInput (editable : bool).

Inductive FooterButton :=
| SubmitAnswerButton (disabled : bool)
| NextButton (label : string)
| NoButton.

Inductive Screen :=
| LoadingScreen
| StudyScreen (wordCount : nat)
| EmptyQuizScreen                       (* [renderQuizQuestion] returned null *)
| QuizScreen (control : AnswerControl) (footer : FooterButton)
| RenderTypeError.

(** The render function: the header toggle is on every screen but the
    loading one; the quiz view reads [question.arabic], which throws when
    [questions[currentQuestion]] is undefined. *)
Definition render (st : State) : Screen :=
  if loading st then LoadingScreen
  else
    match currentMode st with
    | study => StudyScreen (List.length (words st))
    | quiz =>
        match currentQuiz st with
        | None => EmptyQuizScreen
        | Some qz =>
            match nth_error (questions qz) (currentQuestion st) with
            | None => RenderTypeError
            | Some question =>
                QuizScreen
                  (match quizType st with
                   | voice_recognition => RecordButton (showResult st)
                   | multiple_choice =>
                       OptionButtons
                         (match options question with
                          | Some l => l
                          | None => []
                          end)
                         (showResult st)
                   | _ => AnswerInput (negb (showResult st))
                   end)
                  (if negb (showResult st)
                      && match quizType st with
                         | voice_recognition => false
                         | _ => true
                         end
                   then SubmitAnswerButton
                          (match userAnswer st with "" => true | _ => false end)
                   else if showResult st then
                     NextButton
                       (if (Z.of_nat (currentQuestion st)
                            <? Z.of_nat (List.length (questions qz)) - 1)%Z
                        then "Next Question" else "Complete Quiz")
                   else NoButton)
            end
        end
    end.

(** The learner's gestures, with what the host delivers on them. *)
Inductive Action :=
| ToggleMode                             (* the header button *)
| ChooseQuizType (t : QuizType)          (* the selector of the study screen *)
| PressStartQuiz (response : option AdvancedQuiz)
| PressOption (o : string)
| TypeAnswer (text : string)
| PressSubmit
| PressNext
| FinishRecording (overall_score : Q) (report : string)
| PressReviewLesson.

Section Press.
Context {H : Host}.

(** A gesture runs its handler if the screen shows the control enabled.
    [PressReviewLesson] belongs to the completion alert; the model lets
    it be pressed whenever a screen is shown. *)
Definition press (st : State) (a : Action) : Outcome :=
  match render st with
  | LoadingScreen => Done st []
  | RenderTypeError => TypeError
  | scr =>
      match a, scr with
      | ToggleMode, _ =>
          Done (setCurrentMode
                  (match currentMode st with study => quiz | quiz => study end)
                  st) []
      | PressReviewLesson, _ => Done (reviewLesson st) []
      | ChooseQuizType t, StudyScreen _ => Done (setQuizType t st) []
      | PressStartQuiz (Some data), StudyScreen _ =>
          Done (startAdvancedQuiz_ok data st) []
      | PressStartQuiz None, StudyScreen _ =>
          let (st', effs) := startAdvancedQuiz_failed st in Done st' effs
      | PressOption o, QuizScreen (OptionButtons opts false) _ =>
          if existsb (String.eqb o) opts
          then Done (setUserAnswer o st) [] else Done st []
      | TypeAnswer text, QuizScreen (AnswerInput true) _ =>
          Done (setUserAnswer text st) []
      | FinishRecording s report, QuizScreen (RecordButton false) _ =>
          analyzeVoiceRecording_ok s report st
      | PressSubmit, QuizScreen _ (SubmitAnswerButton false) => submitAnswer st
      | PressNext, QuizScreen _ (NextButton _) => nextQuestion st
      | _, _ => Done st []
      end
  end.

(** States the screen can be in: from the loaded lesson, by any gestures
    whose handlers ran to their end. *)
Inductive reachable : State -> Prop :=
| reach_loaded ws : reachable (loadLesson_ok ws mounted)
| reach_press st a st' effs :
    reachable st -> press st a = Done st' effs -> reachable st'.

(** The state after a sequence of gestures (one that throws ends it). *)
Fixpoint after (st : State) (gestures : list Action) : State :=
  match gestures with
  | [] => st
  | a :: rest =>
      match press st a with
      | Done st' _ => after st' rest
      | TypeError => st
      end
  end.

End Press.

(** The bound that every gesture keeps: at most one point per question
    reached; and the current question exists, unless the quiz came
    without questions (then the quiz view throws and nothing more
    happens). *)
Definition session_inv (st : State) : Prop :=
  score st <= currentQuestion st + (if showResult st then 1 else 0) /\
  forall qz, currentQuiz st = Some qz ->
    currentQuestion st < List.length (questions qz) \/
    (questions qz = [] /\ currentQuestion st = 0 /\ showResult st = false /\
     currentMode st = quiz /\ loading st = false).

(** A host for sample runs: ASCII lower case, trimming of blanks, the
    percentage rounded half up, decimal [parseInt]. *)
Module Sample.

Definition lowerAscii (c : ascii) : ascii :=
  let n := nat_of_ascii c in
  if (65 <=? n) && (n <=? 90) then ascii_of_nat (n + 32) else c.

Fixpoint toLowerCase (s : string) : string :=
  match s with
  | EmptyString => EmptyString
  | String c s' => String (lowerAscii c) (toLowerCase s')
  end.

Fixpoint trimStart (s : string) : string :=
  match s with
  | String " " s' => trimStart s'
  | _ => s
  end.

Fixpoint trimEnd (s : string) : string :=
  match s with
  | EmptyString => EmptyString
  | String c s' =>
      match c, trimEnd s' with
      | " "%char, EmptyString => EmptyString
      | _, r => String c r
      end
  end.

Definition parseInt (s : string) : Z :=
  match NilEmpty.uint_of_string s with
  | Some u => Z.of_nat (Nat.of_uint u)
  | None => 0%Z
  end.

#[export] Instance host : Host :=
  {| Advanced.toLowerCase := toLowerCase;
     Advanced.trim := fun s => trimEnd (trimStart s);
     Advanced.finalScoreText := fun s d => showNat ((200 * s + d) / (2 * d));
     Advanced.parseInt := parseInt |}.

End Sample.


Definition qLord : QuizQuestion :=
  {| word_id := "w2"; arabic := "RABB"; transliteration := "Rabb";
     meaning := "Lord"; options := None; correct_answer := None;
     question_text := Some "Rabb means ___"; answer := Some "Lord";
     instruction := None; target_pronunciation := None |}.




Definition fillBlankQuiz : AdvancedQuiz :=
  {| lesson_id := "lesson_1"; quiz_type := "fill_blank";
     total_questions := 1; questions := [qLord] |}.

(** A fill-in quiz answered after the quiz type was set to multiple
    choice: its question has no [correct_answer]. *)
Definition keylessState : State :=
  setUserAnswer "Lord"
    (setQuizType multiple_choice
       (startAdvancedQuiz_ok fillBlankQuiz (loadLesson_ok [] mounted))).


(** ** Properties of the advanced quiz *)

Section Facts.
Context {H : Host}.







(** X14.  A question that comes without its answer key
    ([correct_answer] for multiple choice, [answer] for fill-in and
    writing) is marked wrong whatever the learner enters: the result is
    shown and the score stays. *)
Theorem submitAnswer_without_key_is_wrong st qz question :
  currentQuiz st = Some qz ->
  nth_error (questions qz) (currentQuestion st) = Some question ->
  (quizType st = multiple_choice /\ correct_answer question = None) \/
  ((quizType st = fill_blank \/ quizType st = writing) /\
   answer question = None) ->
  submitAnswer st = Done (setShowResult true st) [] /\
  score (setShowResult true st) = score st.
Proof.
  intros Hq Hn Hkey. split; [|reflexivity].
  unfold submitAnswer. rewrite Hq, Hn.
  destruct Hkey as [[-> Hk]|[[->| ->] Hk]]; cbn; now rewrite Hk.
Qed.

(** X15.  A quiz that arrives without questions cannot be shown: once it
    is started the quiz view throws, whatever is pressed. *)
Theorem empty_quiz_throws data st a :
  questions data = [] ->
  render (startAdvancedQuiz_ok data st) = RenderTypeError /\
  press (startAdvancedQuiz_ok data st) a = TypeError.
Proof.
  intros He.
  assert (R : render (startAdvancedQuiz_ok data st) = RenderTypeError)
    by (unfold render; cbn; now rewrite He).
  split; trivial. unfold press. now rewrite R.
Qed.


End Facts.

(** ** The properties at a sample quiz *)






Lemma submitAnswer_without_key_is_wrong_witness :
  submitAnswer (H := Sample.host) keylessState
    = Done (setShowResult true keylessState) [] /\
  score (setShowResult true keylessState) = 0.
Proof.
  split; [|reflexivity].
  refine (proj1 (@submitAnswer_without_key_is_wrong Sample.host keylessState
                   fillBlankQuiz qLord eq_refl eq_refl _)).
  left. split; reflexivity.
Defined.

Lemma empty_quiz_throws_witness :
  press (H := Sample.host)
    (startAdvancedQuiz_ok
       {| lesson_id := "lesson_1"; quiz_type := "writing";
          total_questions := 0; questions := [] |}
       (loadLesson_ok [] mounted))
    PressSubmit
  = TypeError.
Proof.
  exact (proj2 (empty_quiz_throws (H := Sample.host)
                  {| lesson_id := "lesson_1"; quiz_type := "writing";
                     total_questions := 0; questions := [] |}
                  (loadLesson_ok [] mounted) PressSubmit eq_refl)).
Defined.

End Advanced.
